(** * drugBankParser: brand name / generic name extraction from a DrugBank dump

    A shallow embedding of [src/drugBankParser.py] ([parseDrug], [parseFile],
    [main]) and the properties of the extraction-and-flattening algorithm.

    Modelling choices, all taken from the Python source:
    - an [xml.etree.ElementTree] element is a tag, an optional text (Python's
      [None] when the element has no text) and its children in document
      order; attributes and tails are never read by the program;
    - Python exceptions are values of [exn]; an expression evaluates to a
      [result], and a statement is a computation [Py] over the [World]
      (what was printed, and the rows handed to the csv writer);
    - [str.lower] is an interface ([Lower]); the general theorems hold for
      every implementation, the concrete examples use the ASCII one;
    - the brand names of a record are a Python [set]: a [gset string], whose
      iteration order is any enumeration of its elements. *)

From Stdlib Require Import String Ascii List Bool Arith.
From stdpp Require Import base gmap sets list strings.

Open Scope string_scope.

(** ** Exceptions and results *)

Inductive exn : Type :=
  | AttributeError
  | KeyError
  | SystemExit
  | OSError
  | ParseError
  | OtherError.

Inductive result (A : Type) : Type :=
  | Ret (a : A)
  | Raise (e : exn).
Arguments Ret {A} a.
Arguments Raise {A} e.

#[global] Instance exn_eq_dec : EqDecision exn.
Proof. solve_decision. Defined.

(** ** XML elements *)

Set Warnings "-register-all,-clear-no-such-hyp".

Inductive Element : Type :=
  mkElement { tag : string; text : option string; children : list Element }.

(** [Element.find(path)] for a path that is one qualified tag: the first
    child carrying that tag, [None] when there is none. *)
Definition find (path : string) (e : Element) : option Element :=
  List.find (fun c => String.eqb (tag c) path) (children e).

(** [Element.findall(path)]: all children carrying that tag, in document
    order. *)
Definition findall (path : string) (e : Element) : list Element :=
  List.filter (fun c => String.eqb (tag c) path) (children e).

Definition NAME : string := "{http://www.drugbank.ca}name".
Definition PRODUCTS : string := "{http://www.drugbank.ca}products".
Definition PRODUCT : string := "{http://www.drugbank.ca}product".

(** ** Strings *)

Class Lower := lower : string -> string.

Definition lower_ascii (c : ascii) : ascii :=
  let n := nat_of_ascii c in
  if Nat.leb 65 n && Nat.leb n 90 then ascii_of_nat (n + 32) else c.

Fixpoint lower_string (s : string) : string :=
  match s with
  | EmptyString => EmptyString
  | String c s' => String (lower_ascii c) (lower_string s')
  end.

(** [str.lower] on ASCII text. *)
Definition ascii_Lower : Lower := lower_string.

(** ** The world a run acts on *)

(** The dict built in the inner loop of [parseFile], with its two keys. *)
Record Row : Type := mkRow { row_brand_name : string; row_generic_name : string }.

#[global] Instance Row_eq_dec : EqDecision Row.
Proof. solve_decision. Defined.

(** [stdout]: the lines printed so far; [out]: the dicts passed to
    [out.writerow] so far, oldest first. *)
Record World : Type := mkWorld { stdout : list string; out : list Row }.

Definition Py (A : Type) : Type := World -> World * result A.

#[global] Instance Py_ret : MRet Py := fun A (a : A) w => (w, Ret a).

(** Sequencing: an exception raised by the first statement skips the rest. *)
#[global] Instance Py_bind : MBind Py := fun A B (k : A -> Py B) (m : Py A) w =>
  match m w with
  | (w', Ret a) => k a w'
  | (w', Raise e) => (w', Raise e)
  end.

Definition raise {A} (e : exn) : Py A := fun w => (w, Raise e).

Definition eval {A} (r : result A) : Py A := fun w => (w, r).

Definition print (line : string) : Py unit :=
  fun w => (mkWorld (stdout w ++ [line]) (out w), Ret tt).

(** The builtin [exit()] raises [SystemExit]. *)
Definition exit {A} : Py A := raise SystemExit.

Definition writerow (row : Row) : Py unit :=
  fun w => (mkWorld (stdout w) (out w ++ [row]), Ret tt).

(** [try: body / except <classes>: handler]; [catches] tells which
    exceptions the clause names (a bare [except:] names them all). *)
Definition try_except {A} (body : Py A) (catches : exn -> bool) (handler : Py A) : Py A :=
  fun w => match body w with
           | (w', Ret a) => (w', Ret a)
           | (w', Raise e) => if catches e then handler w' else (w', Raise e)
           end.

Definition bare_except : exn -> bool := fun _ => true.
Definition except_KeyError : exn -> bool := fun e => bool_decide (e = KeyError).

(** ** parseDrug *)

Record DrugMapping : Type :=
  mkDrugMapping { generic_name : string; brand_names : gset string }.

Section Parser.
Context {str : Lower}.

(** [e.find('{http://www.drugbank.ca}name').text.lower()]: taking [.text]
    of [None], or [.lower()] of [None], raises [AttributeError]. *)
Definition name_text_lower (e : Element) : result string :=
  match find NAME e with
  | None => Raise AttributeError
  | Some n =>
      match text n with
      | None => Raise AttributeError
      | Some s => Ret (lower s)
      end
  end.

(** The loop over the products, adding each lowered name to the set. *)
Fixpoint brand_loop (products : list Element) (drugBrandNames : gset string)
  : result (gset string) :=
  match products with
  | [] => Ret drugBrandNames
  | product :: rest =>
      match name_text_lower product with
      | Raise e => Raise e
      | Ret brandName => brand_loop rest ({[ brandName ]} ∪ drugBrandNames)
      end
  end.

(** The body of the second [try]: [products.findall] on [None] raises
    [AttributeError]. *)
Definition brand_names_body (drugData : Element) : result (gset string) :=
  match find PRODUCTS drugData with
  | None => Raise AttributeError
  | Some products => brand_loop (findall PRODUCT products) ∅
  end.

Definition GENERIC_NAME_ERROR : string :=
  "Error: could not retrieve generic name data of drug".
Definition BRAND_NAME_ERROR : string :=
  "Error: could not retrieve brand name data of drug".

Definition parseDrug (drugData : Element) : Py DrugMapping :=
  drugGenericName ←
    try_except (eval (name_text_lower drugData)) bare_except
      (print GENERIC_NAME_ERROR;; exit);
  drugBrandNames ←
    try_except (eval (brand_names_body drugData)) except_KeyError
      (print BRAND_NAME_ERROR;; exit);
  mret (mkDrugMapping drugGenericName drugBrandNames).

(** ** parseFile *)

(** The dict [row] built in the inner loop for one brand name. *)
Definition make_row (drugMapping : DrugMapping) (brandName : string) : Row :=
  mkRow brandName (generic_name drugMapping).

(** The inner loop, over the brand names in the order the set yields
    them. *)
Fixpoint write_rows (drugMapping : DrugMapping) (order : list string) : Py unit :=
  match order with
  | [] => mret tt
  | brandName :: rest =>
      writerow (make_row drugMapping brandName);; write_rows drugMapping rest
  end.

(** Iterating over a Python [set] yields each element once, in an order
    the language does not fix. *)
Definition set_iteration (s : gset string) (order : list string) : Prop :=
  order ≡ₚ elements s.

(** The loop [for drug in root] as a relation between the world before
    and the world and outcome after: a run picks one iteration order for
    every set it walks. *)
Inductive for_drugs : list Element -> World -> World * result unit -> Prop :=
  | for_drugs_done w :
      for_drugs [] w (w, Ret tt)
  | for_drugs_raise drug rest w w' e :
      parseDrug drug w = (w', Raise e) ->
      for_drugs (drug :: rest) w (w', Raise e)
  | for_drugs_next drug rest w w' drugMapping order r :
      parseDrug drug w = (w', Ret drugMapping) ->
      set_iteration (brand_names drugMapping) order ->
      for_drugs rest (write_rows drugMapping order w').1 r ->
      for_drugs (drug :: rest) w r.

(** The same loop as a function, for a given way [iter] of enumerating
    a set. *)
Fixpoint for_drugs_with (iter : gset string -> list string) (drugs : list Element)
  : Py unit :=
  match drugs with
  | [] => mret tt
  | drug :: rest =>
      drugMapping ← parseDrug drug;
      write_rows drugMapping (iter (brand_names drugMapping));;
      for_drugs_with iter rest
  end.

(** [ET.parse(inputFile)] followed by [getroot()]: what the file system
    and the XML parser answer for a path. *)
Variable ET_parse : string -> result Element.

Definition READ_ERROR (inputFile : string) : string :=
  "Error: could not read in data from file " ++ inputFile.

Definition read_input (inputFile : string) : Py Element :=
  try_except (eval (ET_parse inputFile)) bare_except
    (print (READ_ERROR inputFile);; exit).

Definition parseFile_run (inputFile : string) (w : World) (r : World * result unit)
  : Prop :=
  match read_input inputFile w with
  | (w', Ret root) => for_drugs (children root) w' r
  | (w', Raise e) => r = (w', Raise e)
  end.

Definition parseFile_with (iter : gset string -> list string) (inputFile : string)
  : Py unit :=
  root ← read_input inputFile;
  for_drugs_with iter (children root).

(** ** main *)

Definition DATA_FILE : string := "rawData.xml".
Definition FIELD_NAMES : list string := ["brand_name"; "generic_name"].

(** [writeheader] passes [dict(zip(fieldnames, fieldnames))] to
    [writerow]. *)
Definition header_row : Row := mkRow "brand_name" "generic_name".
Definition writeheader : Py unit := writerow header_row.

(** Nothing printed yet, and the output file just opened with mode "w". *)
Definition fresh : World := mkWorld [] [].

Definition main_run (r : World * result unit) : Prop :=
  parseFile_run DATA_FILE (writeheader fresh).1 r.

Definition main_with (iter : gset string -> list string) : World * result unit :=
  (writeheader;; parseFile_with iter DATA_FILE) fresh.

End Parser.

(** ** What the csv writer puts in the file *)

(** [rowdict.get(key, "")] on the two-key dict. *)
Definition row_get (row : Row) (key : string) : string :=
  if String.eqb key "brand_name" then row_brand_name row
  else if String.eqb key "generic_name" then row_generic_name row
  else "".

Definition row_fields (fieldnames : list string) (row : Row) : list string :=
  map (row_get row) fieldnames.

(** A field the default dialect writes as it is: no comma, double quote,
    carriage return or line feed in it. *)
Definition plain_field (s : string) : bool :=
  forallb (fun c => negb (existsb (Nat.eqb (nat_of_ascii c)) [44; 34; 13; 10]))
    (list_ascii_of_string s).

(** The line written for plain fields, without its terminator. *)
Definition csv_line (fields : list string) : string := String.concat "," fields.

Definition file_lines (w : World) : list string :=
  map (fun row => csv_line (row_fields FIELD_NAMES row)) (out w).

(** The text of the name child of an element, when it has both. *)
Definition name_text (e : Element) : option string :=
  match find NAME e with
  | None => None
  | Some n => text n
  end.

(** The product children of the products container of a record. *)
Definition product_elements (drugData : Element) : option (list Element) :=
  match find PRODUCTS drugData with
  | None => None
  | Some products => Some (findall PRODUCT products)
  end.

(** ** Notions used to state the properties *)

Section Notions.
Context {str : Lower}.

(** The brand names a list of products yields: the lowered text of each
    readable name. *)
Definition lowered_names (products : list Element) : list string :=
  omap (fun product => lower <$> name_text product) products.

Definition readable (e : Element) : Prop := is_Some (name_text e).

(** [row] pairs the lowered name of [drug] with the lowered name of one
    of its products. *)
Definition row_from (drug : Element) (row : Row) : Prop :=
  exists g products product b,
    name_text drug = Some g /\
    product_elements drug = Some products /\
    product ∈ products /\
    name_text product = Some b /\
    row = mkRow (lower b) (lower g).

(** The rows of a mapping, in the order [elements] lists its brand
    names. *)
Definition record_rows (m : DrugMapping) : list Row :=
  make_row m <$> elements (brand_names m).

Definition is_block (m : DrugMapping) (block : list Row) : Prop :=
  block ≡ₚ record_rows m.

(** The mappings of the records a run gets through, in document order:
    those before the first record whose extraction raises. *)
Fixpoint processed (drugs : list Element) : list DrugMapping :=
  match drugs with
  | [] => []
  | drug :: rest =>
      match (parseDrug drug fresh).2 with
      | Ret m => m :: processed rest
      | Raise _ => []
      end
  end.

(** The lines a run over [drugs] prints, and how it ends. *)
Fixpoint outcome (drugs : list Element) : list string * result unit :=
  match drugs with
  | [] => ([], Ret tt)
  | drug :: rest =>
      match (parseDrug drug fresh).2 with
      | Ret _ => outcome rest
      | Raise e => (stdout (parseDrug drug fresh).1, Raise e)
      end
  end.

(** A record from which [parseDrug] returns a mapping. *)
Definition extracts (drug : Element) : Prop :=
  exists m, (parseDrug drug fresh).2 = Ret m.

(** The records of the document at a path; none when it does not parse. *)
Definition records (ET_parse : string -> result Element) (inputFile : string)
  : list Element :=
  match ET_parse inputFile with
  | Ret root => children root
  | Raise _ => []
  end.

End Notions.

(** ** Sample documents *)

Definition DRUG : string := "{http://www.drugbank.ca}drug".
Definition DRUGBANK : string := "{http://www.drugbank.ca}drugbank".

Definition name_element (s : string) : Element := mkElement NAME (Some s) [].
Definition product_element (s : string) : Element :=
  mkElement PRODUCT None [name_element s].
Definition products_element (products : list Element) : Element :=
  mkElement PRODUCTS None products.
Definition drug_element (s : string) (products : list Element) : Element :=
  mkElement DRUG None [name_element s; products_element products].
Definition document (drugs : list Element) : Element :=
  mkElement DRUGBANK None drugs.

Definition aspirin : Element :=
  drug_element "Aspirin" [product_element "Bayer"; product_element "bayer"].
Definition ibuprofen : Element :=
  drug_element "Ibuprofen" [product_element "Advil"; product_element "Motrin"].
(** A record with a name and no products container. *)
Definition no_products : Element := mkElement DRUG None [name_element "Aspirin"].
(** A record with a name and a products container without products. *)
Definition empty_products : Element := drug_element "Placebo" [].
(** A product without a name, and a record that holds it. *)
Definition nameless_product : Element := mkElement PRODUCT None [].
Definition unnamed_brand : Element :=
  drug_element "Ibuprofen" [nameless_product; product_element "Advil"].
(** A record without a name. *)
Definition nameless : Element :=
  mkElement DRUG None [products_element [product_element "Bayer"]].

(** A file system where every path parses to [root], and one where no path
    can be read. *)
Definition always (root : Element) : string -> result Element := fun _ => Ret root.
Definition unreadable : string -> result Element := fun _ => Raise OSError.

(** * Properties *)

Section Properties.
Context {str : Lower}.

Lemma name_text_lower_eq e :
  name_text_lower e =
    match name_text e with
    | None => Raise AttributeError
    | Some s => Ret (lower s)
    end.
Proof.
  unfold name_text_lower, name_text.
  destruct (find NAME e) as [n|]; [destruct (text n)|]; reflexivity.
Qed.

Lemma brand_loop_readable products acc :
  Forall readable products ->
  brand_loop products acc = Ret (list_to_set (lowered_names products) ∪ acc).
Proof.
  intros Hall. revert acc.
  induction Hall as [|product rest [s Hs] _ IH]; intros acc; simpl.
  - f_equal. set_solver.
  - unfold lowered_names. rewrite name_text_lower_eq. simpl.
    rewrite Hs. simpl. rewrite IH. f_equal.
    fold (lowered_names rest). set_solver.
Qed.

Lemma brand_loop_unreadable products acc :
  Exists (fun product => name_text product = None) products ->
  brand_loop products acc = Raise AttributeError.
Proof.
  intros Hex. revert acc.
  induction Hex as [product rest Hnone | product rest _ IH]; intros acc; simpl;
    rewrite name_text_lower_eq.
  - rewrite Hnone. reflexivity.
  - destruct (name_text product); [apply IH | reflexivity].
Qed.

Lemma brand_loop_Raise products acc e :
  brand_loop products acc = Raise e -> e = AttributeError.
Proof.
  revert acc. induction products as [|product rest IH]; intros acc; simpl.
  - discriminate.
  - rewrite name_text_lower_eq.
    destruct (name_text product); [apply IH | congruence].
Qed.

Lemma brand_loop_Ret products acc s :
  brand_loop products acc = Ret s -> Forall readable products.
Proof.
  revert acc. induction products as [|product rest IH]; intros acc; simpl.
  - constructor.
  - rewrite name_text_lower_eq.
    destruct (name_text product) eqn:Hn; [|discriminate].
    intros Hrest. constructor; [unfold readable; rewrite Hn; eauto | eapply IH, Hrest].
Qed.

Lemma brand_names_body_Raise drugData e :
  brand_names_body drugData = Raise e -> e = AttributeError.
Proof.
  unfold brand_names_body.
  destruct (find PRODUCTS drugData); [apply brand_loop_Raise | congruence].
Qed.

(** [parseDrug] by cases on its two [try] bodies. *)
Lemma parseDrug_cases drugData w :
  parseDrug drugData w =
    match name_text_lower drugData with
    | Raise _ => ((print GENERIC_NAME_ERROR w).1, Raise SystemExit)
    | Ret g =>
        match brand_names_body drugData with
        | Ret s => (w, Ret (mkDrugMapping g s))
        | Raise KeyError => ((print BRAND_NAME_ERROR w).1, Raise SystemExit)
        | Raise e => (w, Raise e)
        end
    end.
Proof.
  unfold parseDrug, mbind, Py_bind, try_except, eval, mret, Py_ret.
  destruct (name_text_lower drugData) as [g|e]; simpl; [|reflexivity].
  destruct (brand_names_body drugData) as [s|[]]; reflexivity.
Qed.

Lemma parseDrug_no_name drugData w :
  name_text drugData = None ->
  parseDrug drugData w = ((print GENERIC_NAME_ERROR w).1, Raise SystemExit).
Proof.
  intros Hn. rewrite parseDrug_cases, name_text_lower_eq, Hn. reflexivity.
Qed.

Lemma parseDrug_brand_raise drugData w g e :
  name_text drugData = Some g ->
  brand_names_body drugData = Raise e ->
  parseDrug drugData w = (w, Raise AttributeError).
Proof.
  intros Hn Hb. rewrite parseDrug_cases, name_text_lower_eq, Hn, Hb.
  apply brand_names_body_Raise in Hb as ->. reflexivity.
Qed.

Lemma parseDrug_ok drugData w g products :
  name_text drugData = Some g ->
  product_elements drugData = Some products ->
  Forall readable products ->
  parseDrug drugData w =
    (w, Ret (mkDrugMapping (lower g) (list_to_set (lowered_names products)))).
Proof.
  intros Hn Hp Hall. rewrite parseDrug_cases, name_text_lower_eq, Hn.
  unfold brand_names_body. unfold product_elements in Hp.
  destruct (find PRODUCTS drugData) as [p|]; [|discriminate].
  injection Hp as <-. rewrite (brand_loop_readable _ _ Hall).
  do 3 f_equal. set_solver.
Qed.

(** A mapping is returned only for a record with a readable name, a
    products container and readable product names. *)
Lemma parseDrug_Ret drugData w w' m :
  parseDrug drugData w = (w', Ret m) ->
  w' = w /\
  exists g products,
    name_text drugData = Some g /\
    product_elements drugData = Some products /\
    Forall readable products /\
    m = mkDrugMapping (lower g) (list_to_set (lowered_names products)).
Proof.
  intros Hp.
  destruct (name_text drugData) as [g|] eqn:Hn;
    [|rewrite (parseDrug_no_name _ _ Hn) in Hp; discriminate].
  destruct (brand_names_body drugData) as [s|e] eqn:Hb;
    [|rewrite (parseDrug_brand_raise _ _ _ _ Hn Hb) in Hp; discriminate].
  unfold brand_names_body in Hb.
  destruct (find PRODUCTS drugData) as [p|] eqn:Hf; [|discriminate].
  assert (Hpe : product_elements drugData = Some (findall PRODUCT p))
    by (unfold product_elements; rewrite Hf; reflexivity).
  pose proof (brand_loop_Ret _ _ _ Hb) as Hall.
  rewrite (parseDrug_ok _ _ _ _ Hn Hpe Hall) in Hp.
  injection Hp as <- <-. split; [reflexivity|]. eauto 10.
Qed.

(** [parseDrug] neither reads the world nor touches the written rows. *)
Lemma parseDrug_world drugData w :
  parseDrug drugData w =
    (mkWorld (stdout w ++ stdout (parseDrug drugData fresh).1) (out w),
     (parseDrug drugData fresh).2).
Proof.
  rewrite !parseDrug_cases.
  destruct (name_text_lower drugData) as [g|e]; [|reflexivity].
  destruct (brand_names_body drugData) as [s|[]]; simpl;
    rewrite ?app_nil_r; destruct w; reflexivity.
Qed.

Lemma write_rows_spec m order w :
  write_rows m order w =
    (mkWorld (stdout w) (out w ++ (make_row m <$> order)), Ret tt).
Proof.
  revert w. induction order as [|b rest IH]; intros w; simpl.
  - rewrite app_nil_r. destruct w; reflexivity.
  - unfold mbind, Py_bind, writerow. rewrite IH. simpl.
    rewrite <- app_assoc. reflexivity.
Qed.

(** The brand names of a record as a set hold each lowered name once. *)
Lemma elements_lowered (names : list string) :
  elements (list_to_set names : gset string) ≡ₚ remove_dups names.
Proof.
  assert (Heq : (list_to_set names : gset string) = list_to_set (remove_dups names)).
  { apply set_eq. intros x. rewrite !elem_of_list_to_set, elem_of_remove_dups. tauto. }
  rewrite Heq. apply elements_list_to_set, NoDup_remove_dups.
Qed.

(** Every way of enumerating sets gives a run of the loop. *)
Lemma for_drugs_with_run iter drugs w :
  (forall s, set_iteration s (iter s)) ->
  for_drugs drugs w (for_drugs_with iter drugs w).
Proof.
  intros Hiter. revert w. induction drugs as [|drug rest IH]; intros w; simpl.
  - constructor.
  - unfold mbind, Py_bind.
    destruct (parseDrug drug w) as [w' [m|e]] eqn:Hp.
    + eapply for_drugs_next; [exact Hp | apply Hiter |].
      destruct (write_rows m (iter (brand_names m)) w') as [w'' [[]|e]] eqn:Hw;
        [apply IH|].
      rewrite write_rows_spec in Hw. discriminate.
    + apply for_drugs_raise, Hp.
Qed.

Lemma for_drugs_total drugs w : exists r, for_drugs drugs w r.
Proof.
  exists (for_drugs_with elements drugs w).
  apply for_drugs_with_run. intros s. unfold set_iteration. reflexivity.
Qed.

Lemma for_drugs_cons_inv drug rest w r :
  for_drugs (drug :: rest) w r ->
  (exists w' e, parseDrug drug w = (w', Raise e) /\ r = (w', Raise e)) \/
  (exists w' m order,
      parseDrug drug w = (w', Ret m) /\
      set_iteration (brand_names m) order /\
      for_drugs rest (write_rows m order w').1 r).
Proof. inversion 1; subst; [left | right]; eauto 10. Qed.

(** A run over [pre ++ post] either stops inside [pre] or completes [pre]
    and goes on with [post]. *)
Lemma for_drugs_app pre post w r :
  for_drugs (pre ++ post) w r ->
  (exists w1 e, for_drugs pre w (w1, Raise e) /\ r = (w1, Raise e)) \/
  (exists w1, for_drugs pre w (w1, Ret tt) /\ for_drugs post w1 r).
Proof.
  revert w. induction pre as [|drug pre IH]; intros w Hrun; simpl in Hrun.
  - right. exists w. split; [constructor | exact Hrun].
  - apply for_drugs_cons_inv in Hrun as [(w' & e & Hp & ->)|(w' & m & order & Hp & Ho & Hrest)].
    + left. exists w', e. split; [apply for_drugs_raise, Hp | reflexivity].
    + apply IH in Hrest as [(w1 & e & Hpre & ->)|(w1 & Hpre & Hpost)].
      * left. exists w1, e. split; [eapply for_drugs_next; eauto | reflexivity].
      * right. exists w1. split; [eapply for_drugs_next; eauto | exact Hpost].
Qed.

(** A run completes a list of records that all extract. *)
Lemma for_drugs_all_extract drugs w w1 e :
  Forall (fun drug => exists m, (parseDrug drug fresh).2 = Ret m) drugs ->
  for_drugs drugs w (w1, Raise e) -> False.
Proof.
  intros Hall. revert w. induction Hall as [|drug rest [m Hm] _ IH]; intros w Hrun.
  - inversion Hrun.
  - apply for_drugs_cons_inv in Hrun as [(w' & e' & Hp & _)|(w' & m' & order & _ & _ & Hrest)].
    + rewrite parseDrug_world, Hm in Hp. discriminate.
    + eapply IH, Hrest.
Qed.

End Properties.

(** * Runs of the loop *)

Section Runs.
Context {str : Lower}.

Lemma for_drugs_raise_iff drug rest w w' e :
  parseDrug drug w = (w', Raise e) ->
  forall r, for_drugs (drug :: rest) w r <-> r = (w', Raise e).
Proof.
  intros Hp r. split.
  - intros Hrun.
    apply for_drugs_cons_inv in Hrun as [(w2 & e2 & Hp2 & ->)|(w2 & m & order & Hp2 & _)];
      congruence.
  - intros ->. apply for_drugs_raise, Hp.
Qed.

Lemma for_drugs_rows_from drugs w r row :
  for_drugs drugs w r ->
  row ∈ out r.1 ->
  row ∈ out w \/ exists drug, drug ∈ drugs /\ row_from drug row.
Proof.
  induction 1 as [w | drug rest w w' e Hp | drug rest w w' m order r Hp Ho Hrest IH];
    simpl; intros Hrow.
  - left. exact Hrow.
  - left. rewrite parseDrug_world in Hp. injection Hp as <- _. exact Hrow.
  - apply parseDrug_Ret in Hp as (-> & g & products & Hg & Hps & Hall & ->).
    destruct (IH Hrow) as [Hin | (drug' & Hin & Hfrom)].
    + rewrite write_rows_spec in Hin. simpl in Hin.
      apply elem_of_app in Hin as [Hin | Hin]; [left; exact Hin | right].
      exists drug. split; [left |].
      apply list_elem_of_fmap in Hin as (b & -> & Hb).
      rewrite Ho in Hb. apply elem_of_elements, elem_of_list_to_set in Hb.
      apply list_elem_of_omap in Hb as (product & Hproduct & Hb).
      destruct (name_text product) as [s|] eqn:Hs; [|discriminate].
      injection Hb as <-.
      exists g, products, product, s. auto.
    + right. exists drug'. split; [right; exact Hin | exact Hfrom].
Qed.

(** What a run of the loop leaves behind: its outcome and printed lines
    are those of [outcome], and the rows it wrote are one block per
    processed record, in document order, each block an enumeration of
    the rows of that record. *)
Lemma for_drugs_spec drugs w r :
  for_drugs drugs w r ->
  r.2 = (outcome drugs).2 /\
  stdout r.1 = (stdout w ++ (outcome drugs).1)%list /\
  exists blocks,
    out r.1 = (out w ++ concat blocks)%list /\
    Forall2 is_block (processed drugs) blocks.
Proof.
  induction 1 as [w | drug rest w w' e Hp | drug rest w w' m order r Hp Ho Hrest IH];
    simpl.
  - rewrite app_nil_r. split; [reflexivity|]. split; [reflexivity|].
    exists []. rewrite app_nil_r. split; [reflexivity | constructor].
  - rewrite parseDrug_world in Hp. injection Hp as <- He. rewrite He. simpl.
    split; [reflexivity|]. split; [reflexivity|].
    exists []. rewrite app_nil_r. split; [reflexivity | constructor].
  - pose proof Hp as Hp'. apply parseDrug_Ret in Hp' as (-> & _).
    rewrite parseDrug_world in Hp. injection Hp as Hw Hm. rewrite Hm.
    destruct IH as (Hres & Hout & blocks & Hrows & Hblocks).
    rewrite write_rows_spec in Hout, Hrows. simpl in Hout, Hrows.
    split; [exact Hres|]. split; [exact Hout|].
    exists ((make_row m <$> order) :: blocks). split.
    + rewrite Hrows. simpl. rewrite app_assoc. reflexivity.
    + constructor; [|exact Hblocks].
      unfold is_block, record_rows. rewrite Ho. reflexivity.
Qed.

Lemma is_block_unique ms blocks1 blocks2 :
  Forall2 is_block ms blocks1 ->
  Forall2 is_block ms blocks2 ->
  Forall2 (≡ₚ) blocks1 blocks2.
Proof.
  intros H1. revert blocks2.
  induction H1 as [|m b1 ms' bs1 Hb1 _ IH]; intros blocks2 H2; inversion H2; subst.
  - constructor.
  - constructor; [|apply IH; assumption].
    unfold is_block in *. etransitivity; [exact Hb1 | symmetry; assumption].
Qed.

Lemma concat_Permutation (blocks1 blocks2 : list (list Row)) :
  Forall2 (≡ₚ) blocks1 blocks2 -> concat blocks1 ≡ₚ concat blocks2.
Proof.
  induction 1 as [|b1 b2 bs1 bs2 Hb _ IH]; simpl; [reflexivity|].
  rewrite Hb, IH. reflexivity.
Qed.

Lemma read_input_cases ET_parse inputFile w :
  read_input ET_parse inputFile w =
    match ET_parse inputFile with
    | Ret root => (w, Ret root)
    | Raise _ => (mkWorld (stdout w ++ [READ_ERROR inputFile]) (out w), Raise SystemExit)
    end.
Proof.
  unfold read_input, try_except, eval. destruct (ET_parse inputFile); reflexivity.
Qed.

Lemma parseFile_run_records ET_parse inputFile root w r :
  ET_parse inputFile = Ret root ->
  parseFile_run ET_parse inputFile w r <-> for_drugs (children root) w r.
Proof.
  intros Hparse. unfold parseFile_run. rewrite read_input_cases, Hparse. reflexivity.
Qed.

Lemma parseFile_with_run ET_parse iter inputFile w :
  (forall s, set_iteration s (iter s)) ->
  parseFile_run ET_parse inputFile w (parseFile_with ET_parse iter inputFile w).
Proof.
  intros Hiter. unfold parseFile_run, parseFile_with, mbind, Py_bind.
  destruct (read_input ET_parse inputFile w) as [w' [root|e]];
    [apply for_drugs_with_run, Hiter | reflexivity].
Qed.

Lemma elements_iteration (s : gset string) : set_iteration s (elements s).
Proof. unfold set_iteration. reflexivity. Qed.

Lemma main_with_run ET_parse iter :
  (forall s, set_iteration s (iter s)) ->
  main_run ET_parse (main_with ET_parse iter).
Proof.
  intros Hiter. unfold main_run, main_with, mbind, Py_bind. simpl.
  apply parseFile_with_run, Hiter.
Qed.

End Runs.

(** * The claims of the specification *)

Section Claims.
Context {str : Lower}.

(** C2, as the code has it: in a record whose products container is
    present, a product whose name field is missing or has no text is not
    skipped. Extraction of the record raises, no mapping is returned, no
    row is written for the record and no later record is processed. *)
Theorem unreadable_product_name_halts drug products rest w :
  product_elements drug = Some products ->
  Exists (fun product => name_text product = None) products ->
  exists w' e,
    parseDrug drug w = (w', Raise e) /\
    out w' = out w /\
    forall r, for_drugs (drug :: rest) w r <-> r = (w', Raise e).
Proof.
  intros Hps Hex.
  assert (Hp : exists w' e, parseDrug drug w = (w', Raise e) /\ out w' = out w).
  { destruct (name_text drug) as [g|] eqn:Hg.
    - exists w, AttributeError. split; [|reflexivity].
      apply (parseDrug_brand_raise _ _ g AttributeError); [exact Hg|].
      unfold brand_names_body. unfold product_elements in Hps.
      destruct (find PRODUCTS drug) as [p|]; [|discriminate].
      injection Hps as <-. apply brand_loop_unreadable, Hex.
    - eexists _, _. split; [apply parseDrug_no_name, Hg | reflexivity]. }
  destruct Hp as (w' & e & Hp & Hout).
  exists w', e. split; [exact Hp|]. split; [exact Hout|].
  apply for_drugs_raise_iff, Hp.
Qed.

(** C3, as the code has it: a record with a readable generic name and a
    products container that holds no product yields a mapping with no
    brand names; it writes no row and prints nothing, and the run goes on
    with the next record. *)
Theorem empty_products_container_contributes_no_rows drug rest w g :
  name_text drug = Some g ->
  product_elements drug = Some [] ->
  parseDrug drug w = (w, Ret (mkDrugMapping (lower g) ∅)) /\
  forall r, for_drugs (drug :: rest) w r <-> for_drugs rest w r.
Proof.
  intros Hg Hps.
  assert (Hp : parseDrug drug w = (w, Ret (mkDrugMapping (lower g) ∅))).
  { rewrite (parseDrug_ok _ _ _ _ Hg Hps); [reflexivity | constructor]. }
  split; [exact Hp|]. intros r. split.
  - intros Hrun.
    apply for_drugs_cons_inv in Hrun
      as [(w' & e & Hp' & _)|(w' & m & order & Hp' & Ho & Hrest)]; [congruence|].
    rewrite Hp in Hp'. injection Hp' as <- <-.
    unfold set_iteration in Ho. simpl in Ho. rewrite elements_empty in Ho.
    apply Permutation_nil_r in Ho as ->. simpl in Hrest. exact Hrest.
  - intros Hrest. apply (for_drugs_next drug rest w w _ [] r Hp); [|exact Hrest].
    unfold set_iteration. simpl. rewrite elements_empty. reflexivity.
Qed.

(** C4: when the input parses, every row a run of [parseFile] writes
    pairs the lowered text of the name of a record of the document with
    the lowered text of the name of one of the products of that record;
    [lower] is the only function applied to either text. *)
Theorem output_names_are_lowered_input_text ET_parse inputFile root w r row :
  ET_parse inputFile = Ret root ->
  parseFile_run ET_parse inputFile w r ->
  row ∈ out r.1 ->
  row ∈ out w \/
  exists drug g products product b,
    drug ∈ children root /\
    name_text drug = Some g /\
    product_elements drug = Some products /\
    product ∈ products /\
    name_text product = Some b /\
    row_generic_name row = lower g /\
    row_brand_name row = lower b.
Proof.
  intros Hparse Hrun Hrow.
  apply (parseFile_run_records _ _ _ _ _ Hparse) in Hrun.
  destruct (for_drugs_rows_from _ _ _ _ Hrun Hrow)
    as [Hold | (drug & Hin & g & products & product & b & Hg & Hps & Hp & Hb & ->)].
  - left. exact Hold.
  - right. exists drug, g, products, product, b. simpl. auto 10.
Qed.

(** C5, as the code has it: for a record with a readable generic name
    whose products all have readable names, every run writes for that
    record exactly as
    many rows as there are distinct lowered product names; the rows
    carry pairwise distinct brand names, each is a lowered product name
    paired with the lowered generic name, every lowered product name has
    its row, and the run goes on with the next record. *)
Theorem one_row_per_distinct_brand_name drug rest w r g products :
  name_text drug = Some g ->
  product_elements drug = Some products ->
  Forall readable products ->
  for_drugs (drug :: rest) w r ->
  exists rows,
    length rows = length (remove_dups (lowered_names products)) /\
    NoDup (row_brand_name <$> rows) /\
    (forall row, row ∈ rows <->
       exists b, b ∈ lowered_names products /\ row = mkRow b (lower g)) /\
    for_drugs rest (mkWorld (stdout w) (out w ++ rows)) r.
Proof.
  intros Hg Hps Hall Hrun.
  pose proof (parseDrug_ok _ w _ _ Hg Hps Hall) as Hp.
  apply for_drugs_cons_inv in Hrun
    as [(w' & e & Hp' & _)|(w' & m & order & Hp' & Ho & Hrest)]; [congruence|].
  rewrite Hp in Hp'. injection Hp' as <- <-.
  unfold set_iteration in Ho. simpl in Ho. rewrite elements_lowered in Ho.
  rewrite write_rows_spec in Hrest. simpl in Hrest.
  exists (make_row (mkDrugMapping (lower g) (list_to_set (lowered_names products)))
            <$> order).
  split; [rewrite length_fmap, Ho; reflexivity|].
  split.
  { rewrite <- list_fmap_compose.
    replace (_ <$> order) with order
      by (clear; induction order as [|b order IH]; simpl;
          [reflexivity | rewrite <- IH at 1; reflexivity]).
    rewrite Ho. apply NoDup_remove_dups. }
  split; [|exact Hrest].
  intros row. rewrite list_elem_of_fmap. unfold make_row. simpl.
  split.
  - intros (b & -> & Hb). exists b. split; [|reflexivity].
    rewrite Ho in Hb. apply elem_of_remove_dups, Hb.
  - intros (b & Hb & ->). exists b. split; [reflexivity|].
    rewrite Ho. apply elem_of_remove_dups, Hb.
Qed.

(** C6: a record without a readable generic name stops the run where
    the loop reaches it: the diagnostic is printed and [SystemExit] is
    raised, no row is written for that record or for a later one, and
    the rows written for the earlier records stay. *)
Theorem missing_generic_name_halts pre drug post w :
  name_text drug = None ->
  Forall (fun earlier => exists m, (parseDrug earlier fresh).2 = Ret m) pre ->
  (exists r, for_drugs (pre ++ drug :: post) w r) /\
  forall r, for_drugs (pre ++ drug :: post) w r ->
    exists w1,
      for_drugs pre w (w1, Ret tt) /\
      r = (mkWorld (stdout w1 ++ [GENERIC_NAME_ERROR]) (out w1), Raise SystemExit).
Proof.
  intros Hg Hpre. split; [apply for_drugs_total|].
  intros r Hrun.
  apply for_drugs_app in Hrun as [(w1 & e & Hrun & _)|(w1 & Hrun & Hrest)].
  - destruct (for_drugs_all_extract _ _ _ _ Hpre Hrun).
  - exists w1. split; [exact Hrun|].
    apply (for_drugs_raise_iff drug post w1 _ SystemExit); [|exact Hrest].
    apply parseDrug_no_name, Hg.
Qed.

(** C7: when the input cannot be read or parsed, [parseFile] prints the
    diagnostic followed by the input path and raises [SystemExit]
    without writing a row; a run of [main] on such an input leaves the
    header as the only row written. *)
Theorem unreadable_input_halts ET_parse inputFile e :
  ET_parse inputFile = Raise e ->
  (forall w r,
      parseFile_run ET_parse inputFile w r <->
      r = (mkWorld
             (stdout w ++ ["Error: could not read in data from file " ++ inputFile])
             (out w),
           Raise SystemExit)) /\
  (inputFile = DATA_FILE ->
   forall r,
     main_run ET_parse r <->
     r = (mkWorld ["Error: could not read in data from file " ++ DATA_FILE]
            [header_row],
          Raise SystemExit)).
Proof.
  intros Hparse.
  assert (Hrun : forall w r,
             parseFile_run ET_parse inputFile w r <->
             r = (mkWorld (stdout w ++ [READ_ERROR inputFile]) (out w),
                  Raise SystemExit)).
  { intros w r. unfold parseFile_run. rewrite read_input_cases, Hparse. reflexivity. }
  split; [exact Hrun|].
  intros -> r. unfold main_run. rewrite Hrun. reflexivity.
Qed.

(** C9: the body of the second [try] of [parseDrug] never raises
    [KeyError], so its handler never runs: the [try] statement behaves
    as its body alone, and [parseDrug] prints either nothing or the
    generic name diagnostic, never the brand name one. *)
Theorem brand_name_handler_is_dead drugData w :
  brand_names_body drugData <> Raise KeyError /\
  try_except (eval (brand_names_body drugData)) except_KeyError
    (print BRAND_NAME_ERROR;; exit) w = (w, brand_names_body drugData) /\
  (stdout (parseDrug drugData w).1 = stdout w \/
   stdout (parseDrug drugData w).1 = (stdout w ++ [GENERIC_NAME_ERROR])%list) /\
  BRAND_NAME_ERROR <> GENERIC_NAME_ERROR.
Proof.
  assert (Hno : brand_names_body drugData <> Raise KeyError).
  { intros Hk. apply brand_names_body_Raise in Hk. discriminate. }
  split; [exact Hno|]. split; [|split; [|discriminate]].
  - unfold try_except, eval.
    destruct (brand_names_body drugData) as [s|e] eqn:Hb; [reflexivity|].
    apply brand_names_body_Raise in Hb as ->. reflexivity.
  - rewrite parseDrug_cases.
    destruct (name_text_lower drugData) as [g|e]; [|right; reflexivity].
    destruct (brand_names_body drugData) as [s|e] eqn:Hb; [left; reflexivity|].
    apply brand_names_body_Raise in Hb as ->. left. reflexivity.
Qed.

(** C10: two runs of [parseFile] on the same parsed document and from
    the same world end the same way and print the same lines; the rows
    each one writes are one block per processed record, in document
    order; corresponding blocks hold the same rows up to order, and so
    do the two outputs as a whole. *)
Theorem parseFile_deterministic_up_to_row_order ET_parse inputFile w r1 r2 :
  parseFile_run ET_parse inputFile w r1 ->
  parseFile_run ET_parse inputFile w r2 ->
  r1.2 = r2.2 /\
  stdout r1.1 = stdout r2.1 /\
  out r1.1 ≡ₚ out r2.1 /\
  exists blocks1 blocks2,
    out r1.1 = (out w ++ concat blocks1)%list /\
    out r2.1 = (out w ++ concat blocks2)%list /\
    Forall2 is_block (processed (records ET_parse inputFile)) blocks1 /\
    Forall2 is_block (processed (records ET_parse inputFile)) blocks2 /\
    Forall2 (≡ₚ) blocks1 blocks2.
Proof.
  unfold parseFile_run, records. rewrite read_input_cases.
  destruct (ET_parse inputFile) as [root|e].
  - intros H1 H2.
    apply for_drugs_spec in H1 as (Hres1 & Hout1 & blocks1 & Hrows1 & Hb1).
    apply for_drugs_spec in H2 as (Hres2 & Hout2 & blocks2 & Hrows2 & Hb2).
    pose proof (is_block_unique _ _ _ Hb1 Hb2) as Hperm.
    split; [congruence|]. split; [congruence|]. split.
    + rewrite Hrows1, Hrows2. apply Permutation_app_head, concat_Permutation, Hperm.
    + exists blocks1, blocks2. auto.
  - intros -> ->. simpl. split; [reflexivity|]. split; [reflexivity|].
    split; [reflexivity|].
    exists [], []. simpl. rewrite app_nil_r. repeat split; constructor.
Qed.

End Claims.

(** * Further properties of parseDrug, parseFile and main *)

Section Outcomes.
Context {str : Lower}.

Lemma brand_loop_Raise_Exists products acc e :
  brand_loop products acc = Raise e ->
  Exists (fun product => name_text product = None) products.
Proof.
  revert acc. induction products as [|product rest IH]; intros acc; simpl.
  - discriminate.
  - rewrite name_text_lower_eq.
    destruct (name_text product) eqn:Hn.
    + intros Hrest. apply Exists_cons_tl. eapply IH, Hrest.
    + intros _. apply Exists_cons_hd, Hn.
Qed.

(** Why and how [parseDrug] fails, read off its two [try] statements. *)
Lemma parseDrug_Raise drugData w w' e :
  parseDrug drugData w = (w', Raise e) ->
  (e = SystemExit /\
   name_text drugData = None /\
   w' = mkWorld (stdout w ++ [GENERIC_NAME_ERROR]) (out w)) \/
  (e = AttributeError /\
   w' = w /\
   exists g,
     name_text drugData = Some g /\
     (product_elements drugData = None \/
      exists products,
        product_elements drugData = Some products /\
        Exists (fun product => name_text product = None) products)).
Proof.
  intros Hp.
  destruct (name_text drugData) as [g|] eqn:Hg.
  - right.
    destruct (brand_names_body drugData) as [s|e'] eqn:Hb.
    + rewrite parseDrug_cases, name_text_lower_eq, Hg, Hb in Hp. discriminate.
    + rewrite (parseDrug_brand_raise _ _ _ _ Hg Hb) in Hp. injection Hp as <- <-.
      split; [reflexivity|]. split; [reflexivity|]. exists g. split; [reflexivity|].
      unfold brand_names_body in Hb. unfold product_elements.
      destruct (find PRODUCTS drugData) as [p|]; [right | left; reflexivity].
      exists (findall PRODUCT p). split; [reflexivity|].
      eapply brand_loop_Raise_Exists, Hb.
  - left. rewrite (parseDrug_no_name _ _ Hg) in Hp. injection Hp as <- <-. auto.
Qed.

Lemma outcome_Ret drugs :
  (outcome drugs).2 = Ret tt <-> Forall extracts drugs.
Proof.
  induction drugs as [|drug rest IH]; simpl.
  - split; [constructor | reflexivity].
  - destruct ((parseDrug drug fresh).2) as [m|e] eqn:Hp; simpl.
    + rewrite IH. split.
      * intros Hrest. constructor; [exists m; exact Hp | exact Hrest].
      * intros Hall. inversion Hall; assumption.
    + split; [discriminate|].
      intros Hall. inversion Hall as [|? ? [m Hm] _]; subst. congruence.
Qed.

Lemma outcome_Ret_silent drugs :
  (outcome drugs).2 = Ret tt -> (outcome drugs).1 = [].
Proof.
  induction drugs as [|drug rest IH]; simpl; [reflexivity|].
  destruct ((parseDrug drug fresh).2) as [m|e]; [exact IH | discriminate].
Qed.

Lemma outcome_Raise drugs e :
  (outcome drugs).2 = Raise e ->
  (e = SystemExit /\ (outcome drugs).1 = [GENERIC_NAME_ERROR]) \/
  (e = AttributeError /\ (outcome drugs).1 = []).
Proof.
  induction drugs as [|drug rest IH]; simpl; [discriminate|].
  destruct (parseDrug drug fresh) as [w' [m|e']] eqn:Hp; simpl; [exact IH|].
  intros He. injection He as ->.
  apply parseDrug_Raise in Hp as [(-> & _ & ->)|(-> & -> & _)]; [left | right]; auto.
Qed.

Lemma processed_extracts drugs :
  Forall extracts drugs -> length (processed drugs) = length drugs.
Proof.
  induction 1 as [|drug rest [m Hm] _ IH]; simpl; [reflexivity|].
  rewrite Hm. simpl. rewrite IH. reflexivity.
Qed.

Lemma for_drugs_app_intro_raise pre post w w1 e :
  for_drugs pre w (w1, Raise e) -> for_drugs (pre ++ post) w (w1, Raise e).
Proof.
  intros Hpre. remember (w1, Raise e) as r eqn:Hr.
  induction Hpre as [w | drug rest w w' e' Hp | drug rest w w' m order r Hp Ho Hrest IH];
    simpl.
  - discriminate.
  - apply for_drugs_raise, Hp.
  - eapply for_drugs_next; [exact Hp | exact Ho | apply IH, Hr].
Qed.

Lemma for_drugs_app_intro pre post w w1 r :
  for_drugs pre w (w1, Ret tt) -> for_drugs post w1 r -> for_drugs (pre ++ post) w r.
Proof.
  intros Hpre Hpost. remember (w1, Ret tt) as rp eqn:Hr.
  induction Hpre as [w | drug rest w w' e' Hp | drug rest w w' m order rp Hp Ho Hrest IH];
    simpl.
  - injection Hr as ->. exact Hpost.
  - discriminate.
  - eapply for_drugs_next; [exact Hp | exact Ho | apply IH, Hr].
Qed.

Lemma is_block_length m block : is_block m block -> length block = size (brand_names m).
Proof.
  unfold is_block, record_rows. intros ->. rewrite length_fmap. reflexivity.
Qed.

Lemma blocks_length ms (blocks : list (list Row)) :
  Forall2 is_block ms blocks ->
  length (concat blocks) = sum_list_with (fun m => size (brand_names m)) ms.
Proof.
  induction 1 as [|m block ms' blocks' Hb _ IH]; simpl; [reflexivity|].
  rewrite length_app, IH, (is_block_length _ _ Hb). reflexivity.
Qed.

Lemma is_block_row m block row :
  is_block m block -> row ∈ block -> row_generic_name row = generic_name m.
Proof.
  unfold is_block, record_rows. intros -> Hin.
  apply list_elem_of_fmap in Hin as (b & -> & _). reflexivity.
Qed.

Lemma is_block_NoDup m block : is_block m block -> NoDup block.
Proof.
  unfold is_block, record_rows. intros ->.
  apply NoDup_fmap_2; [|apply NoDup_elements].
  intros b1 b2 Heq. injection Heq as ->. reflexivity.
Qed.

Lemma blocks_NoDup ms (blocks : list (list Row)) :
  Forall2 is_block ms blocks ->
  NoDup (generic_name <$> ms) ->
  NoDup (concat blocks).
Proof.
  induction 1 as [|m block ms' blocks' Hb Hrest IH]; simpl; [constructor|].
  intros Hnd. apply NoDup_cons in Hnd as [Hfresh Hnd].
  apply NoDup_app. split; [eapply is_block_NoDup, Hb|]. split; [|apply IH, Hnd].
  intros row Hin Hin'. apply Hfresh.
  apply (is_block_row _ _ _ Hb) in Hin. rewrite <- Hin.
  clear -Hrest Hin'. induction Hrest as [|m' block' ms' blocks' Hb' _ IH]; simpl in *.
  - inversion Hin'.
  - apply elem_of_app in Hin' as [Hin'|Hin'].
    + rewrite (is_block_row _ _ _ Hb' Hin'). left.
    + right. apply IH, Hin'.
Qed.

End Outcomes.

Section Further.
Context {str : Lower}.

(** X1: [parseDrug] returns a mapping exactly for a record that has a
    readable name, a products container, and a readable name in every
    product; it then leaves the world as it found it, and the mapping
    holds the lowered record name and the set of the lowered product
    names. *)
Theorem parseDrug_returns_iff drugData w w' m :
  parseDrug drugData w = (w', Ret m) <->
  w' = w /\
  exists g products,
    name_text drugData = Some g /\
    product_elements drugData = Some products /\
    Forall readable products /\
    m = mkDrugMapping (lower g) (list_to_set (lowered_names products)).
Proof.
  split; [apply parseDrug_Ret|].
  intros (-> & g & products & Hg & Hps & Hall & ->).
  apply parseDrug_ok; assumption.
Qed.

(** X2: [parseDrug] fails in two ways only. It raises [SystemExit], after
    printing the generic name diagnostic, when the record has no readable
    name; it raises [AttributeError], printing nothing, when the name is
    readable and the products container is missing or one of its products
    has no readable name. Either way no row is written. *)
Theorem parseDrug_failure_modes drugData w w' e :
  parseDrug drugData w = (w', Raise e) ->
  out w' = out w /\
  ((e = SystemExit /\
    name_text drugData = None /\
    stdout w' = (stdout w ++ [GENERIC_NAME_ERROR])%list) \/
   (e = AttributeError /\
    stdout w' = stdout w /\
    exists g,
      name_text drugData = Some g /\
      (product_elements drugData = None \/
       exists products,
         product_elements drugData = Some products /\
         Exists (fun product => name_text product = None) products))).
Proof.
  intros Hp.
  apply parseDrug_Raise in Hp as [(-> & Hg & ->)|(-> & -> & Hwhy)]; simpl.
  - split; [reflexivity|]. left. auto.
  - split; [reflexivity|]. right. auto.
Qed.

(** X3: the mapping of a record depends on its products only through the
    set of their lowered names: two records with the same name text whose
    products are all readable and have the same lowered names, in whatever
    order and however often repeated, get the same mapping. *)
Theorem brand_names_ignore_order_and_repeats drug1 drug2 w g products1 products2 :
  name_text drug1 = Some g ->
  name_text drug2 = Some g ->
  product_elements drug1 = Some products1 ->
  product_elements drug2 = Some products2 ->
  Forall readable products1 ->
  Forall readable products2 ->
  (forall b, b ∈ lowered_names products1 <-> b ∈ lowered_names products2) ->
  parseDrug drug1 w = parseDrug drug2 w.
Proof.
  intros Hg1 Hg2 Hps1 Hps2 Hall1 Hall2 Hsame.
  rewrite (parseDrug_ok _ _ _ _ Hg1 Hps1 Hall1), (parseDrug_ok _ _ _ _ Hg2 Hps2 Hall2).
  do 3 f_equal. apply set_eq. intros b. rewrite !elem_of_list_to_set. apply Hsame.
Qed.

(** X4: [parseFile] only appends: the rows written and the lines printed
    before the call are a prefix of those after it. *)
Theorem parseFile_only_appends ET_parse inputFile w r :
  parseFile_run ET_parse inputFile w r ->
  out w `prefix_of` out r.1 /\ stdout w `prefix_of` stdout r.1.
Proof.
  unfold parseFile_run. rewrite read_input_cases.
  destruct (ET_parse inputFile) as [root|e].
  - intros Hrun.
    apply for_drugs_spec in Hrun as (_ & Hout & blocks & Hrows & _).
    rewrite Hout, Hrows. split; apply prefix_app_r; reflexivity.
  - intros ->. simpl. split; [reflexivity | apply prefix_app_r; reflexivity].
Qed.

(** X5: a run of [parseFile] ends normally exactly when the input parses
    and every child of the root is a record from which [parseDrug]
    returns a mapping; such a run prints nothing. *)
Theorem parseFile_returns_iff ET_parse inputFile w r :
  parseFile_run ET_parse inputFile w r ->
  (r.2 = Ret tt <->
   exists root, ET_parse inputFile = Ret root /\ Forall extracts (children root)) /\
  (r.2 = Ret tt -> stdout r.1 = stdout w).
Proof.
  unfold parseFile_run. rewrite read_input_cases.
  destruct (ET_parse inputFile) as [root|e].
  - intros Hrun. apply for_drugs_spec in Hrun as (Hres & Hout & _).
    rewrite Hres, Hout. split.
    + rewrite outcome_Ret. split.
      * intros Hall. exists root. auto.
      * intros (root' & Heq & Hall). injection Heq as ->. exact Hall.
    + intros Hend. rewrite (outcome_Ret_silent _ Hend), app_nil_r. reflexivity.
  - intros ->. simpl. split; [|discriminate].
    split; [discriminate | intros (root & Heq & _); discriminate].
Qed.

(** X6: a run of [parseFile] that does not end normally ends with
    [SystemExit] or with [AttributeError], never with another exception.
    With [SystemExit] it has printed exactly one line, the read diagnostic
    or the generic name diagnostic; with [AttributeError] it has printed
    nothing. *)
Theorem parseFile_exceptions ET_parse inputFile w r e :
  parseFile_run ET_parse inputFile w r ->
  r.2 = Raise e ->
  (e = SystemExit /\
   exists line,
     stdout r.1 = (stdout w ++ [line])%list /\
     (line = READ_ERROR inputFile \/ line = GENERIC_NAME_ERROR)) \/
  (e = AttributeError /\ stdout r.1 = stdout w).
Proof.
  unfold parseFile_run. rewrite read_input_cases.
  destruct (ET_parse inputFile) as [root|e'].
  - intros Hrun He. apply for_drugs_spec in Hrun as (Hres & Hout & _).
    rewrite Hres in He. rewrite Hout.
    apply outcome_Raise in He as [(-> & ->)|(-> & ->)].
    + left. split; [reflexivity|]. exists GENERIC_NAME_ERROR. auto.
    + right. rewrite app_nil_r. auto.
  - intros -> He. simpl in *. injection He as <-.
    left. split; [reflexivity|]. exists (READ_ERROR inputFile). auto.
Qed.

(** X7: the number of rows a run of [parseFile] writes is the sum, over
    the records it gets through, of the number of distinct brand names of
    each. *)
Theorem parseFile_row_count ET_parse inputFile w r :
  parseFile_run ET_parse inputFile w r ->
  length (out r.1) =
    length (out w) +
    sum_list_with (fun m => size (brand_names m)) (processed (records ET_parse inputFile)).
Proof.
  unfold parseFile_run, records. rewrite read_input_cases.
  destruct (ET_parse inputFile) as [root|e].
  - intros Hrun. apply for_drugs_spec in Hrun as (_ & _ & blocks & Hrows & Hblocks).
    rewrite Hrows, length_app, (blocks_length _ _ Hblocks). reflexivity.
  - intros ->. simpl. lia.
Qed.

(** X8: the loop over a document split in two is the loop over the first
    part followed, when that ends normally, by the loop over the second
    part from the world the first left; when the first part raises, the
    second is not run. *)
Theorem for_drugs_app_iff pre post w r :
  for_drugs (pre ++ post) w r <->
  (exists w1 e, for_drugs pre w (w1, Raise e) /\ r = (w1, Raise e)) \/
  (exists w1, for_drugs pre w (w1, Ret tt) /\ for_drugs post w1 r).
Proof.
  split; [apply for_drugs_app|].
  intros [(w1 & e & Hpre & ->)|(w1 & Hpre & Hpost)].
  - apply for_drugs_app_intro_raise, Hpre.
  - eapply for_drugs_app_intro; eassumption.
Qed.

(** X9: the records after the first one whose extraction raises have no
    effect: a run over a document that holds such a record ends with an
    exception, and is also a run over the document with anything else put
    after that record. *)
Theorem records_after_a_failure_are_ignored pre bad post post' w r e :
  (parseDrug bad fresh).2 = Raise e ->
  for_drugs (pre ++ bad :: post) w r ->
  (exists e', r.2 = Raise e') /\ for_drugs (pre ++ bad :: post') w r.
Proof.
  intros Hbad Hrun.
  apply for_drugs_app in Hrun as [(w1 & e1 & Hpre & ->)|(w1 & Hpre & Hrest)].
  - split; [exists e1; reflexivity | apply for_drugs_app_intro_raise, Hpre].
  - assert (Hp : parseDrug bad w1 =
                   (mkWorld (stdout w1 ++ stdout (parseDrug bad fresh).1) (out w1),
                    Raise e))
      by (rewrite parseDrug_world, Hbad; reflexivity).
    apply (for_drugs_raise_iff _ _ _ _ _ Hp) in Hrest as ->.
    split; [exists e; reflexivity|].
    eapply for_drugs_app_intro; [exact Hpre | apply for_drugs_raise, Hp].
Qed.

(** X10: when the records a run gets through have pairwise distinct
    lowered generic names, the rows it writes are pairwise distinct. *)
Theorem distinct_generic_names_give_distinct_rows ET_parse inputFile w r :
  NoDup (generic_name <$> processed (records ET_parse inputFile)) ->
  parseFile_run ET_parse inputFile w r ->
  exists rows, out r.1 = (out w ++ rows)%list /\ NoDup rows.
Proof.
  unfold parseFile_run, records. rewrite read_input_cases.
  destruct (ET_parse inputFile) as [root|e].
  - intros Hnd Hrun.
    apply for_drugs_spec in Hrun as (_ & _ & blocks & Hrows & Hblocks).
    exists (concat blocks). split; [exact Hrows | eapply blocks_NoDup; eassumption].
  - intros _ ->. exists []. simpl. rewrite app_nil_r. split; [reflexivity | constructor].
Qed.

(** X11: whatever the input, a run of [main] has the header as the first
    row written, so the first line of the file is brand_name,generic_name;
    and it has printed at most one line. *)
Theorem main_writes_header_first ET_parse r :
  main_run ET_parse r ->
  (exists rows, out r.1 = header_row :: rows) /\
  head (file_lines r.1) = Some "brand_name,generic_name" /\
  length (stdout r.1) <= 1.
Proof.
  unfold main_run, parseFile_run. rewrite read_input_cases. simpl.
  destruct (ET_parse DATA_FILE) as [root|e].
  - intros Hrun. apply for_drugs_spec in Hrun as (Hres & Hout & blocks & Hrows & _).
    simpl in Hout, Hrows.
    assert (Hlen : length (stdout r.1) <= 1).
    { rewrite Hout. destruct ((outcome (children root)).2) as [[]|e] eqn:He.
      - rewrite (outcome_Ret_silent _ He). simpl. lia.
      - apply outcome_Raise in He as [(_ & ->)|(_ & ->)]; simpl; lia. }
    destruct r as [[so ro] res]. simpl in *. subst ro.
    split; [eexists; reflexivity|]. split; [reflexivity | exact Hlen].
  - intros ->. simpl. split; [eexists; reflexivity|]. split; [reflexivity | lia].
Qed.

(** X12: on a document without records [main] writes the header and
    nothing else, prints nothing and ends normally. *)
Theorem main_on_empty_document ET_parse root r :
  ET_parse DATA_FILE = Ret root ->
  children root = [] ->
  (main_run ET_parse r <-> r = (mkWorld [] [header_row], Ret tt)).
Proof.
  intros Hparse Hnone. unfold main_run.
  rewrite (parseFile_run_records _ _ _ _ _ Hparse), Hnone. simpl. split.
  - inversion 1. reflexivity.
  - intros ->. constructor.
Qed.

End Further.

(** * The claims on the sample documents *)

#[local] Existing Instance ascii_Lower.

(** C1: on a record with a name and no products container the second
    [try] of [parseDrug] raises [AttributeError], which its
    [except KeyError] clause does not catch: nothing is printed, and the
    loop of [parseFile] ends with that exception instead of the
    diagnostic and [SystemExit]. *)
Theorem missing_products_container_raises_without_diagnostic :
  name_text no_products = Some "Aspirin" /\
  product_elements no_products = None /\
  parseDrug no_products fresh = (fresh, Raise AttributeError) /\
  for_drugs_with elements [no_products; ibuprofen] fresh = (fresh, Raise AttributeError).
Proof. repeat split; vm_compute; reflexivity. Qed.

(** C2 fails as stated: the products container of [unnamed_brand] is
    present and its first product has no name, yet no mapping is returned
    and the loop stops there. *)
Lemma unreadable_product_name_is_not_skipped :
  product_elements unnamed_brand = Some [nameless_product; product_element "Advil"] /\
  name_text nameless_product = None /\
  ~ (exists w' m, parseDrug unnamed_brand fresh = (w', Ret m)) /\
  for_drugs_with elements [unnamed_brand; aspirin] fresh = (fresh, Raise AttributeError).
Proof.
  split; [reflexivity|]. split; [reflexivity|]. split; [|vm_compute; reflexivity].
  intros (w' & m & Hp). vm_compute in Hp. discriminate.
Qed.

Lemma unreadable_product_name_halts_witness :
  product_elements unnamed_brand = Some [nameless_product; product_element "Advil"] /\
  Exists (fun product => name_text product = None)
    [nameless_product; product_element "Advil"] /\
  exists w' e,
    parseDrug unnamed_brand fresh = (w', Raise e) /\
    out w' = out fresh /\
    forall r, for_drugs [unnamed_brand; aspirin] fresh r <-> r = (w', Raise e).
Proof.
  assert (Hps : product_elements unnamed_brand
                = Some [nameless_product; product_element "Advil"]) by reflexivity.
  assert (Hex : Exists (fun product => name_text product = None)
                  [nameless_product; product_element "Advil"])
    by (apply Exists_cons_hd; reflexivity).
  split; [exact Hps|]. split; [exact Hex|].
  exact (unreadable_product_name_halts unnamed_brand _ [aspirin] fresh Hps Hex).
Defined.

(** C3 fails as stated: [no_products] has a readable generic name and no
    products container, yet no mapping is returned for it and no run over
    it and a further record reaches the end of the loop. *)
Lemma missing_products_container_halts_the_run :
  name_text no_products = Some "Aspirin" /\
  product_elements no_products = None /\
  ~ (exists w' m, parseDrug no_products fresh = (w', Ret m)) /\
  ~ (exists r, for_drugs [no_products; ibuprofen] fresh r /\ r.2 = Ret tt).
Proof.
  split; [reflexivity|]. split; [reflexivity|]. split.
  - intros (w' & m & Hp). vm_compute in Hp. discriminate.
  - intros (r & Hrun & Hend).
    apply (for_drugs_raise_iff no_products [ibuprofen] fresh fresh AttributeError)
      in Hrun; [|vm_compute; reflexivity].
    subst r. discriminate.
Qed.

Lemma empty_products_container_contributes_no_rows_witness :
  name_text empty_products = Some "Placebo" /\
  product_elements empty_products = Some [] /\
  parseDrug empty_products fresh = (fresh, Ret (mkDrugMapping (lower "Placebo") ∅)) /\
  forall r, for_drugs [empty_products; ibuprofen] fresh r <-> for_drugs [ibuprofen] fresh r.
Proof.
  assert (Hg : name_text empty_products = Some "Placebo") by reflexivity.
  assert (Hps : product_elements empty_products = Some []) by reflexivity.
  split; [exact Hg|]. split; [exact Hps|].
  exact (empty_products_container_contributes_no_rows
           empty_products [ibuprofen] fresh "Placebo" Hg Hps).
Defined.

Lemma output_names_are_lowered_input_text_witness :
  let ET_parse := always (document [aspirin]) in
  let r := parseFile_with ET_parse elements DATA_FILE fresh in
  let row := mkRow "bayer" "aspirin" in
  ET_parse DATA_FILE = Ret (document [aspirin]) /\
  parseFile_run ET_parse DATA_FILE fresh r /\
  row ∈ out r.1 /\
  (row ∈ out fresh \/
   exists drug g products product b,
     drug ∈ children (document [aspirin]) /\
     name_text drug = Some g /\
     product_elements drug = Some products /\
     product ∈ products /\
     name_text product = Some b /\
     row_generic_name row = lower g /\
     row_brand_name row = lower b).
Proof.
  intros ET_parse r row.
  assert (Hparse : ET_parse DATA_FILE = Ret (document [aspirin])) by reflexivity.
  assert (Hrun : parseFile_run ET_parse DATA_FILE fresh r)
    by apply parseFile_with_run, elements_iteration.
  assert (Hrow : row ∈ out r.1) by (vm_compute; constructor).
  split; [exact Hparse|]. split; [exact Hrun|]. split; [exact Hrow|].
  exact (output_names_are_lowered_input_text
           ET_parse DATA_FILE (document [aspirin]) fresh r row Hparse Hrun Hrow).
Defined.

(** C5 fails as stated: [unnamed_brand] has a readable generic name and
    one distinct readable product name, "advil", beside a product without
    a name; runs over it exist, yet none writes one row for it and goes
    on: every run writes no row at all and ends with an exception. *)
Lemma unreadable_product_name_breaks_row_count :
  name_text unnamed_brand = Some "Ibuprofen" /\
  product_elements unnamed_brand = Some [nameless_product; product_element "Advil"] /\
  remove_dups (lowered_names [nameless_product; product_element "Advil"]) = ["advil"] /\
  (exists r, for_drugs [unnamed_brand; aspirin] fresh r) /\
  ~ (exists r rows,
        for_drugs [unnamed_brand; aspirin] fresh r /\
        length rows = 1 /\
        for_drugs [aspirin] (mkWorld (stdout fresh) (out fresh ++ rows)) r) /\
  forall r, for_drugs [unnamed_brand; aspirin] fresh r ->
    out r.1 = [] /\ r.2 = Raise AttributeError.
Proof.
  assert (Hruns : forall r, for_drugs [unnamed_brand; aspirin] fresh r ->
                            r = (fresh, Raise AttributeError)).
  { intros r Hrun.
    apply (for_drugs_raise_iff unnamed_brand [aspirin] fresh fresh AttributeError)
      in Hrun; [exact Hrun | vm_compute; reflexivity]. }
  split; [reflexivity|]. split; [reflexivity|]. split; [vm_compute; reflexivity|].
  split; [apply for_drugs_total|]. split.
  - intros (r & rows & Hrun & Hlen & Hrest).
    apply Hruns in Hrun as ->.
    assert (Hout : out (mkWorld (stdout fresh) (out fresh ++ rows))
                   `prefix_of` out (fresh, Raise (A := unit) AttributeError).1).
    { apply for_drugs_spec in Hrest as (_ & _ & blocks & -> & _).
      apply prefix_app_r. reflexivity. }
    simpl in Hout. apply prefix_nil_inv in Hout. subst rows. discriminate.
  - intros r Hrun. apply Hruns in Hrun as ->. split; reflexivity.
Qed.

Lemma one_row_per_distinct_brand_name_witness :
  let products := [product_element "Bayer"; product_element "bayer"] in
  let r := for_drugs_with elements [aspirin; ibuprofen] fresh in
  name_text aspirin = Some "Aspirin" /\
  product_elements aspirin = Some products /\
  Forall readable products /\
  for_drugs [aspirin; ibuprofen] fresh r /\
  length (remove_dups (lowered_names products)) = 1 /\
  exists rows,
    length rows = length (remove_dups (lowered_names products)) /\
    NoDup (row_brand_name <$> rows) /\
    (forall row, row ∈ rows <->
       exists b, b ∈ lowered_names products /\ row = mkRow b (lower "Aspirin")) /\
    for_drugs [ibuprofen] (mkWorld (stdout fresh) (out fresh ++ rows)) r.
Proof.
  intros products r.
  assert (Hg : name_text aspirin = Some "Aspirin") by reflexivity.
  assert (Hps : product_elements aspirin = Some products) by reflexivity.
  assert (Hall : Forall readable products)
    by (repeat constructor; eexists; reflexivity).
  assert (Hrun : for_drugs [aspirin; ibuprofen] fresh r)
    by apply for_drugs_with_run, elements_iteration.
  split; [exact Hg|]. split; [exact Hps|]. split; [exact Hall|].
  split; [exact Hrun|]. split; [vm_compute; reflexivity|].
  exact (one_row_per_distinct_brand_name
           aspirin [ibuprofen] fresh r "Aspirin" products Hg Hps Hall Hrun).
Defined.

Lemma missing_generic_name_halts_witness :
  name_text nameless = None /\
  Forall (fun earlier => exists m, (parseDrug earlier fresh).2 = Ret m) [aspirin] /\
  (exists r, for_drugs ([aspirin] ++ nameless :: [ibuprofen]) fresh r) /\
  forall r, for_drugs ([aspirin] ++ nameless :: [ibuprofen]) fresh r ->
    exists w1,
      for_drugs [aspirin] fresh (w1, Ret tt) /\
      r = (mkWorld (stdout w1 ++ [GENERIC_NAME_ERROR]) (out w1), Raise SystemExit).
Proof.
  assert (Hg : name_text nameless = None) by reflexivity.
  assert (Hpre : Forall (fun earlier => exists m, (parseDrug earlier fresh).2 = Ret m)
                   [aspirin])
    by (repeat constructor; eexists; vm_compute; reflexivity).
  split; [exact Hg|]. split; [exact Hpre|].
  exact (missing_generic_name_halts [aspirin] nameless [ibuprofen] fresh Hg Hpre).
Defined.

Lemma unreadable_input_halts_witness :
  unreadable DATA_FILE = Raise OSError /\
  (forall w r,
      parseFile_run unreadable DATA_FILE w r <->
      r = (mkWorld
             (stdout w ++ ["Error: could not read in data from file " ++ DATA_FILE])
             (out w),
           Raise SystemExit)) /\
  (DATA_FILE = DATA_FILE ->
   forall r,
     main_run unreadable r <->
     r = (mkWorld ["Error: could not read in data from file " ++ DATA_FILE]
            [header_row],
          Raise SystemExit)).
Proof.
  assert (Hparse : unreadable DATA_FILE = Raise OSError) by reflexivity.
  split; [exact Hparse|].
  exact (unreadable_input_halts unreadable DATA_FILE OSError Hparse).
Defined.

(** C8: on the document whose one record is named "Aspirin" and has the
    products "Bayer" and "bayer", every run of [main] ends normally,
    prints nothing, and has written the header and the one row bayer,
    aspirin; the file holds the lines brand_name,generic_name and
    bayer,aspirin. *)
Theorem aspirin_bayer_end_to_end r :
  main_run (always (document [aspirin])) r ->
  r = (mkWorld [] [header_row; mkRow "bayer" "aspirin"], Ret tt) /\
  file_lines r.1 = ["brand_name,generic_name"; "bayer,aspirin"] /\
  forallb plain_field ["brand_name"; "generic_name"; "bayer"; "aspirin"] = true.
Proof.
  intros Hrun. unfold main_run in Hrun.
  apply (parseFile_run_records (always (document [aspirin])) DATA_FILE
           (document [aspirin])) in Hrun; [|reflexivity].
  simpl in Hrun.
  apply for_drugs_cons_inv in Hrun
    as [(w' & e & Hp & _)|(w' & m & order & Hp & Ho & Hrest)].
  - vm_compute in Hp. discriminate.
  - rewrite (parseDrug_ok aspirin _ "Aspirin"
               [product_element "Bayer"; product_element "bayer"]) in Hp;
      [|reflexivity|reflexivity|repeat constructor; eexists; reflexivity].
    injection Hp as <- <-.
    unfold set_iteration in Ho. vm_compute in Ho. apply Permutation_singleton_r in Ho as ->.
    rewrite write_rows_spec in Hrest. inversion Hrest; subst.
    repeat split; vm_compute; reflexivity.
Qed.

Lemma aspirin_bayer_end_to_end_witness :
  let r := main_with (always (document [aspirin])) elements in
  main_run (always (document [aspirin])) r /\
  r = (mkWorld [] [header_row; mkRow "bayer" "aspirin"], Ret tt) /\
  file_lines r.1 = ["brand_name,generic_name"; "bayer,aspirin"] /\
  forallb plain_field ["brand_name"; "generic_name"; "bayer"; "aspirin"] = true.
Proof.
  intros r.
  assert (Hrun : main_run (always (document [aspirin])) r)
    by apply main_with_run, elements_iteration.
  split; [exact Hrun|].
  exact (aspirin_bayer_end_to_end r Hrun).
Defined.

Lemma parseFile_deterministic_up_to_row_order_witness :
  let ET_parse := always (document [ibuprofen; aspirin]) in
  let r1 := parseFile_with ET_parse elements DATA_FILE fresh in
  let r2 := parseFile_with ET_parse (fun s => reverse (elements s)) DATA_FILE fresh in
  parseFile_run ET_parse DATA_FILE fresh r1 /\
  parseFile_run ET_parse DATA_FILE fresh r2 /\
  out r1.1 <> out r2.1 /\
  r1.2 = r2.2 /\
  stdout r1.1 = stdout r2.1 /\
  out r1.1 ≡ₚ out r2.1 /\
  exists blocks1 blocks2,
    out r1.1 = (out fresh ++ concat blocks1)%list /\
    out r2.1 = (out fresh ++ concat blocks2)%list /\
    Forall2 is_block (processed (records ET_parse DATA_FILE)) blocks1 /\
    Forall2 is_block (processed (records ET_parse DATA_FILE)) blocks2 /\
    Forall2 (≡ₚ) blocks1 blocks2.
Proof.
  intros ET_parse r1 r2.
  assert (H1 : parseFile_run ET_parse DATA_FILE fresh r1)
    by apply parseFile_with_run, elements_iteration.
  assert (H2 : parseFile_run ET_parse DATA_FILE fresh r2).
  { apply parseFile_with_run. intros s. unfold set_iteration.
    apply reverse_Permutation. }
  split; [exact H1|]. split; [exact H2|].
  split; [vm_compute; discriminate|].
  exact (parseFile_deterministic_up_to_row_order ET_parse DATA_FILE fresh r1 r2 H1 H2).
Defined.

(** * The further properties on the sample documents *)

Lemma parseDrug_returns_iff_witness :
  let products := [product_element "Bayer"; product_element "bayer"] in
  parseDrug aspirin fresh =
    (fresh, Ret (mkDrugMapping (lower "Aspirin") (list_to_set (lowered_names products)))).
Proof.
  intros products.
  apply (proj2 (parseDrug_returns_iff aspirin fresh fresh _)).
  split; [reflexivity|]. exists "Aspirin", products.
  split; [reflexivity|]. split; [reflexivity|]. split; [|reflexivity].
  repeat constructor; eexists; reflexivity.
Defined.

Lemma parseDrug_failure_modes_witness :
  let w' := mkWorld [GENERIC_NAME_ERROR] [] in
  parseDrug nameless fresh = (w', Raise SystemExit) /\
  out w' = out fresh /\
  ((SystemExit = SystemExit /\
    name_text nameless = None /\
    stdout w' = (stdout fresh ++ [GENERIC_NAME_ERROR])%list) \/
   (SystemExit = AttributeError /\
    stdout w' = stdout fresh /\
    exists g,
      name_text nameless = Some g /\
      (product_elements nameless = None \/
       exists products,
         product_elements nameless = Some products /\
         Exists (fun product => name_text product = None) products))).
Proof.
  intros w'.
  assert (Hp : parseDrug nameless fresh = (w', Raise SystemExit)) by reflexivity.
  split; [exact Hp|].
  exact (parseDrug_failure_modes nameless fresh w' SystemExit Hp).
Defined.

Lemma brand_names_ignore_order_and_repeats_witness :
  let shouting := drug_element "Aspirin" [product_element "BAYER"] in
  let products1 := [product_element "Bayer"; product_element "bayer"] in
  let products2 := [product_element "BAYER"] in
  name_text aspirin = Some "Aspirin" /\
  name_text shouting = Some "Aspirin" /\
  product_elements aspirin = Some products1 /\
  product_elements shouting = Some products2 /\
  Forall readable products1 /\
  Forall readable products2 /\
  (forall b, b ∈ lowered_names products1 <-> b ∈ lowered_names products2) /\
  parseDrug aspirin fresh = parseDrug shouting fresh.
Proof.
  intros shouting products1 products2.
  assert (Hg1 : name_text aspirin = Some "Aspirin") by reflexivity.
  assert (Hg2 : name_text shouting = Some "Aspirin") by reflexivity.
  assert (Hps1 : product_elements aspirin = Some products1) by reflexivity.
  assert (Hps2 : product_elements shouting = Some products2) by reflexivity.
  assert (Hall1 : Forall readable products1)
    by (repeat constructor; eexists; reflexivity).
  assert (Hall2 : Forall readable products2)
    by (repeat constructor; eexists; reflexivity).
  assert (Hsame : forall b, b ∈ lowered_names products1 <-> b ∈ lowered_names products2).
  { intros b. change (b ∈ ["bayer"; "bayer"] <-> b ∈ ["bayer"]).
    rewrite !elem_of_cons. tauto. }
  repeat (split; [assumption|]).
  exact (brand_names_ignore_order_and_repeats
           aspirin shouting fresh "Aspirin" products1 products2
           Hg1 Hg2 Hps1 Hps2 Hall1 Hall2 Hsame).
Defined.

Lemma parseFile_only_appends_witness :
  let ET_parse := always (document [aspirin]) in
  let w := mkWorld ["started"] [header_row] in
  let r := parseFile_with ET_parse elements DATA_FILE w in
  parseFile_run ET_parse DATA_FILE w r /\
  out w `prefix_of` out r.1 /\ stdout w `prefix_of` stdout r.1.
Proof.
  intros ET_parse w r.
  assert (Hrun : parseFile_run ET_parse DATA_FILE w r)
    by apply parseFile_with_run, elements_iteration.
  split; [exact Hrun|].
  exact (parseFile_only_appends ET_parse DATA_FILE w r Hrun).
Defined.

Lemma parseFile_returns_iff_witness :
  let ET_parse := always (document [aspirin; ibuprofen]) in
  let r := parseFile_with ET_parse elements DATA_FILE fresh in
  parseFile_run ET_parse DATA_FILE fresh r /\
  r.2 = Ret tt /\
  (r.2 = Ret tt <->
   exists root, ET_parse DATA_FILE = Ret root /\ Forall extracts (children root)) /\
  (r.2 = Ret tt -> stdout r.1 = stdout fresh).
Proof.
  intros ET_parse r.
  assert (Hrun : parseFile_run ET_parse DATA_FILE fresh r)
    by apply parseFile_with_run, elements_iteration.
  split; [exact Hrun|]. split; [vm_compute; reflexivity|].
  exact (parseFile_returns_iff ET_parse DATA_FILE fresh r Hrun).
Defined.

Lemma parseFile_exceptions_witness :
  let ET_parse := always (document [aspirin; nameless; ibuprofen]) in
  let r := parseFile_with ET_parse elements DATA_FILE fresh in
  parseFile_run ET_parse DATA_FILE fresh r /\
  r.2 = Raise SystemExit /\
  ((SystemExit = SystemExit /\
    exists line,
      stdout r.1 = (stdout fresh ++ [line])%list /\
      (line = READ_ERROR DATA_FILE \/ line = GENERIC_NAME_ERROR)) \/
   (SystemExit = AttributeError /\ stdout r.1 = stdout fresh)).
Proof.
  intros ET_parse r.
  assert (Hrun : parseFile_run ET_parse DATA_FILE fresh r)
    by apply parseFile_with_run, elements_iteration.
  assert (He : r.2 = Raise SystemExit) by (vm_compute; reflexivity).
  split; [exact Hrun|]. split; [exact He|].
  exact (parseFile_exceptions ET_parse DATA_FILE fresh r SystemExit Hrun He).
Defined.

Lemma parseFile_row_count_witness :
  let ET_parse := always (document [ibuprofen; aspirin]) in
  let r := parseFile_with ET_parse elements DATA_FILE fresh in
  parseFile_run ET_parse DATA_FILE fresh r /\
  length (out r.1) = 3 /\
  length (out r.1) =
    length (out fresh) +
    sum_list_with (fun m => size (brand_names m)) (processed (records ET_parse DATA_FILE)).
Proof.
  intros ET_parse r.
  assert (Hrun : parseFile_run ET_parse DATA_FILE fresh r)
    by apply parseFile_with_run, elements_iteration.
  split; [exact Hrun|]. split; [vm_compute; reflexivity|].
  exact (parseFile_row_count ET_parse DATA_FILE fresh r Hrun).
Defined.

Lemma for_drugs_app_iff_witness :
  let r := for_drugs_with elements [ibuprofen] (for_drugs_with elements [aspirin] fresh).1 in
  for_drugs [aspirin] fresh (for_drugs_with elements [aspirin] fresh) /\
  for_drugs [ibuprofen] (for_drugs_with elements [aspirin] fresh).1 r /\
  for_drugs ([aspirin] ++ [ibuprofen]) fresh r.
Proof.
  intros r.
  assert (H1 : for_drugs [aspirin] fresh (for_drugs_with elements [aspirin] fresh))
    by apply for_drugs_with_run, elements_iteration.
  assert (H2 : for_drugs [ibuprofen] (for_drugs_with elements [aspirin] fresh).1 r)
    by apply for_drugs_with_run, elements_iteration.
  split; [exact H1|]. split; [exact H2|].
  apply (proj2 (for_drugs_app_iff [aspirin] [ibuprofen] fresh r)).
  right. exists (for_drugs_with elements [aspirin] fresh).1. split; [exact H1 | exact H2].
Defined.

Lemma records_after_a_failure_are_ignored_witness :
  let r := for_drugs_with elements ([aspirin] ++ no_products :: [ibuprofen]) fresh in
  (parseDrug no_products fresh).2 = Raise AttributeError /\
  for_drugs ([aspirin] ++ no_products :: [ibuprofen]) fresh r /\
  (exists e', r.2 = Raise e') /\
  for_drugs ([aspirin] ++ no_products :: []) fresh r.
Proof.
  intros r.
  assert (Hbad : (parseDrug no_products fresh).2 = Raise AttributeError)
    by (vm_compute; reflexivity).
  assert (Hrun : for_drugs ([aspirin] ++ no_products :: [ibuprofen]) fresh r)
    by apply for_drugs_with_run, elements_iteration.
  split; [exact Hbad|]. split; [exact Hrun|].
  exact (records_after_a_failure_are_ignored
           [aspirin] no_products [ibuprofen] [] fresh r AttributeError Hbad Hrun).
Defined.

Lemma distinct_generic_names_give_distinct_rows_witness :
  let ET_parse := always (document [ibuprofen; aspirin]) in
  let r := parseFile_with ET_parse elements DATA_FILE fresh in
  NoDup (generic_name <$> processed (records ET_parse DATA_FILE)) /\
  parseFile_run ET_parse DATA_FILE fresh r /\
  exists rows, out r.1 = (out fresh ++ rows)%list /\ NoDup rows.
Proof.
  intros ET_parse r.
  assert (Hnd : NoDup (generic_name <$> processed (records ET_parse DATA_FILE))).
  { change (NoDup ["ibuprofen"; "aspirin"]).
    apply NoDup_cons. split; [|apply NoDup_singleton].
    rewrite list_elem_of_singleton. discriminate. }
  assert (Hrun : parseFile_run ET_parse DATA_FILE fresh r)
    by apply parseFile_with_run, elements_iteration.
  split; [exact Hnd|]. split; [exact Hrun|].
  exact (distinct_generic_names_give_distinct_rows ET_parse DATA_FILE fresh r Hnd Hrun).
Defined.

Lemma main_writes_header_first_witness :
  let r := main_with unreadable elements in
  main_run unreadable r /\
  (exists rows, out r.1 = header_row :: rows) /\
  head (file_lines r.1) = Some "brand_name,generic_name" /\
  length (stdout r.1) <= 1.
Proof.
  intros r.
  assert (Hrun : main_run unreadable r) by apply main_with_run, elements_iteration.
  split; [exact Hrun|].
  exact (main_writes_header_first unreadable r Hrun).
Defined.

Lemma main_on_empty_document_witness :
  let ET_parse := always (document []) in
  ET_parse DATA_FILE = Ret (document []) /\
  children (document []) = [] /\
  (main_run ET_parse (main_with ET_parse elements) <->
   main_with ET_parse elements = (mkWorld [] [header_row], Ret tt)).
Proof.
  intros ET_parse.
  assert (Hparse : ET_parse DATA_FILE = Ret (document [])) by reflexivity.
  assert (Hnone : children (document []) = []) by reflexivity.
  split; [exact Hparse|]. split; [exact Hnone|].
  exact (main_on_empty_document ET_parse (document []) (main_with ET_parse elements)
           Hparse Hnone).
Defined.
